(** * Router: a shallow embedding of [src/router.js]

    The development follows the class [Router] member by member:
    the private registry [#routes], the private registration method
    [#add], the public [get], [post] and [static], and the dispatch
    method [route].  The platform objects the class talks to
    ([URLPattern], [Deno.open], [console.error]) are kept behind small
    interfaces; every theorem about [route] holds for any
    implementation of them. *)

From Stdlib Require Import ZArith String Ascii List Bool Lia.
From stdpp Require Import base option list strings gmap.

Local Open Scope Z_scope.
Local Open Scope string_scope.
Local Open Scope list_scope.

(** ** JavaScript values, errors and promises *)

(** The values a caller can pass where the class expects a pathname. *)
Inductive js_value : Type :=
| JSUndefined
| JSNull
| JSBoolean (b : bool)
| JSNumber (n : Z)
| JSString (s : string)
| JSObject (ref : positive).

Definition typeof (v : js_value) : string :=
  match v with
  | JSUndefined => "undefined"
  | JSNull => "object"
  | JSBoolean _ => "boolean"
  | JSNumber _ => "number"
  | JSString _ => "string"
  | JSObject _ => "object"
  end.

(** Thrown values: [new Error(message)] and the platform's [TypeError]. *)
Inductive js_error : Type :=
| Error (message : string)
| TypeError (message : string).

(** Result of a call that either returns or throws. *)
Inductive result (A : Type) : Type :=
| Ok (a : A)
| Err (e : js_error).
Arguments Ok {A} a.
Arguments Err {A} e.

#[global] Instance result_ret : MRet result := fun _ a => Ok a.
#[global] Instance result_bind : MBind result := fun _ _ f m =>
  match m with
  | Ok a => f a
  | Err e => Err e
  end.

(** What [await] observes of the value a handler returns: a response
    (returned directly or through a fulfilled promise), a thrown error
    or rejected promise, or a promise that never settles. *)
Inductive promise (A : Type) : Type :=
| Fulfilled (a : A)
| Rejected (e : js_error)
| Pending.
Arguments Fulfilled {A} a.
Arguments Rejected {A} e.
Arguments Pending {A}.

(** ** Requests and responses *)

Record Request : Type := {
  method : string;
  url : string;
  payload : option string
}.

(** A file handle as returned by [Deno.open]; [rid] is the resource id. *)
Record FsFile : Type := { rid : positive }.

Inductive BodyInit : Type :=
| BodyNull
| BodyText (s : string)
| BodyStream (file : FsFile).

Record Response : Type := {
  body : BodyInit;
  status : Z;
  headers : list (string * string)
}.

(** [new Response(body, { status, headers })]. *)
Definition new_Response (b : BodyInit) (st : Z) (hs : list (string * string))
  : Response :=
  {| body := b; status := st; headers := hs |}.

(** ** Handlers *)

(** [pathname.groups] of a pattern match: capture name to captured text. *)
Abbreviation groups := (gmap string string).

(** The object [{ req, params }] a handler is called with.  [params]
    is [None] when [url.exec(req.url)?.pathname.groups] is undefined. *)
Record Context : Type := {
  req : Request;
  params : option groups
}.

Abbreviation Handler := (Context -> promise Response).

(** ** Platform interfaces *)

(** [URLPattern]: the constructor applied to [{ pathname }] (it throws
    a [TypeError] on a malformed pattern), [test] and [exec] on a URL
    string; [exec] is already projected to [.pathname.groups].  The
    standard defines [test] as "[exec] is not null". *)
Class URLPatternAPI : Type := {
  URLPattern : Type;
  new_URLPattern : string -> result URLPattern;
  test : URLPattern -> string -> bool;
  exec : URLPattern -> string -> option groups;
  test_exec : forall p u, test p u = true <-> is_Some (exec p u)
}.

(** [Deno.open(path, { read: true })]: a file, or a rejection; and
    what whoever consumes [file.readable] gets: the bytes of the file,
    or a failure of the read (the handle of a directory opens, but
    cannot be read). *)
Class DenoAPI : Type := {
  Deno_open : string -> result FsFile;
  read_all : FsFile -> result string
}.

(** ** The registry *)

(** An inner [Map] from pathname to handler.  Iteration follows
    insertion order, so it is kept as an association list. *)
Abbreviation Table := (list (string * Handler)).

(** [Map.prototype.set]: a key already present keeps its position and
    gets the new value, a new key goes to the end. *)
Fixpoint Map_set (k : string) (v : Handler) (m : Table) : Table :=
  match m with
  | [] => [(k, v)]
  | (k', v') :: m' =>
      if String.eqb k' k then (k, v) :: m' else (k', v') :: Map_set k v m'
  end.

Definition Map_keys (m : Table) : list string := m.*1.

Fixpoint Map_get (k : string) (m : Table) : option Handler :=
  match m with
  | [] => None
  | (k', v') :: m' => if String.eqb k' k then Some v' else Map_get k m'
  end.

(** The class state: the private field [#routes]. *)
Record Router : Type := {
  routes : gmap string Table
}.

(** [new Router()]. *)
Definition new_Router : Router :=
  {| routes := <["GET" := []]> (<["POST" := []]> ∅) |}.

(** How a method call ends: normally, or by throwing. *)
Inductive completion : Type :=
| Normal
| Throw (e : js_error).

(** [a === b]. *)
Definition strict_equal (a b : js_value) : bool :=
  match a, b with
  | JSUndefined, JSUndefined => true
  | JSNull, JSNull => true
  | JSBoolean x, JSBoolean y => Bool.eqb x y
  | JSNumber x, JSNumber y => Z.eqb x y
  | JSString x, JSString y => String.eqb x y
  | JSObject x, JSObject y => Pos.eqb x y
  | _, _ => false
  end.

(** The guard of [#add]:
    [typeof pathname !== "string" || pathname === ""]. *)
Definition invalid_pathname (pathname : js_value) : bool :=
  negb (String.eqb (typeof pathname) "string")
  || strict_equal pathname (JSString "").

(** [#add(method, pathname, handler)]. *)
Definition add (meth : string) (pathname : js_value) (handler : Handler)
    (r : Router) : Router * completion :=
  if invalid_pathname pathname then (r, Throw (Error "Invalid pathname"))
  else
    match pathname with
    | JSString key =>
        (* this.#routes.get(method)?.set(pathname, handler) *)
        match routes r !! meth with
        | Some table =>
            ({| routes := <[meth := Map_set key handler table]> (routes r) |},
             Normal)
        | None => (r, Normal)
        end
    | _ => (r, Normal) (* not reached: the guard lets only strings through *)
    end.

Definition get (pathname : js_value) (handler : Handler) (r : Router)
  : Router * completion :=
  add "GET" pathname handler r.

Definition post (pathname : js_value) (handler : Handler) (r : Router)
  : Router * completion :=
  add "POST" pathname handler r.

(** ** The static-directory handler *)

(** String conversion of a possibly undefined string, as in
    ["..." + params.path]. *)
Definition js_String (v : option string) : string :=
  match v with
  | Some s => s
  | None => "undefined"
  end.

(** [/\.js$/s.test(s)]: [s] ends in [".js"]. *)
Definition ends_with_js (s : string) : bool :=
  let n := String.length s in
  (3 <=? n)%nat && String.eqb (substring (n - 3) 3 s) ".js".

(** [params.name]: a [TypeError] when [params] is undefined. *)
Definition params_get (name : string) (ps : option groups)
  : result (option string) :=
  match ps with
  | Some g => Ok (g !! name)
  | None => Err (TypeError "Cannot read properties of undefined")
  end.

(** [params.path]. *)
Definition params_path : option groups -> result (option string) :=
  params_get "path".

Section Static.
Context `{DenoAPI}.

(** The body of the [try] block of the handler built by [static]. *)
Definition static_try (foldername : string) (ps : option groups)
  : result Response :=
  path ← params_path ps;
  file ← Deno_open ("./" +:+ foldername +:+ "/" +:+ js_String path);
  let hs :=
    if ends_with_js (js_String path)
    then [("content-type", "text/javascript")] else [] in
  Ok (new_Response (BodyStream file) 200 hs).

(** The [async ({ params }) => { try { ... } catch { ... } }] arrow. *)
Definition static_handler (foldername : string) : Handler :=
  fun ctx =>
    match static_try foldername (params ctx) with
    | Ok resp => Fulfilled resp
    | Err _ => Fulfilled (new_Response (BodyText "Not Found") 404 [])
    end.

(** [static(pathname = "/static", foldername = "static")]; an omitted
    argument is [None]. *)
Definition static (pathname foldername : option string) (r : Router)
  : Router * completion :=
  let pathname := default "/static" pathname in
  let foldername := default "static" foldername in
  add "GET" (JSString (pathname +:+ "/:path*")) (static_handler foldername) r.
End Static.

(** ** Dispatch *)

(** What a dispatch does that can be observed from outside, in order. *)
Inductive event : Type :=
| EvTest (pathname : string) (matched : bool)     (* url.test(req.url) *)
| EvCall (pathname : string) (ctx : Context)      (* handler({ req, params }) *)
| EvLog (e : js_error).                           (* console.error(error) *)

(** How the [for ... of] loop of [route] ends. *)
Inductive loop_exit : Type :=
| Fallthrough (st : Z)        (* the table is exhausted; [st] is [status] *)
| Returned (resp : Response)  (* [return await handler(...)] *)
| Threw (e : js_error)        (* an exception left the loop *)
| Suspended.                  (* the awaited promise never settles *)

Definition emit (evs : list event) (k : list event * loop_exit)
  : list event * loop_exit :=
  (evs ++ k.1, k.2).

Section Route.
Context `{URLPatternAPI}.

(** The loop over the entries of the method's table, started with the
    current value of [status]. *)
Fixpoint for_of (rq : Request) (entries : Table) (st : Z)
  : list event * loop_exit :=
  match entries with
  | [] => ([], Fallthrough st)
  | (pathname, handler) :: rest =>
      match new_URLPattern pathname with
      | Err e => ([], Threw e)
      | Ok pat =>
          if test pat (url rq) then
            let ctx := {| req := rq; params := exec pat (url rq) |} in
            emit [EvTest pathname true; EvCall pathname ctx]
              match handler ctx with
              | Fulfilled resp => ([], Returned resp)
              | Pending => ([], Suspended)
              | Rejected e => emit [EvLog e] (for_of rq rest 500)
              end
          else
            emit [EvTest pathname false] (for_of rq rest 404)
      end
  end.

(** [route(req)]: the events of the dispatch and the state of the
    promise the [async] method returns. *)
Definition route (r : Router) (rq : Request)
  : list event * promise Response :=
  let st := 405 in
  match routes r !! method rq with
  | Some table =>
      let '(evs, ex) := for_of rq table st in
      (evs,
       match ex with
       | Fallthrough st' => Fulfilled (new_Response BodyNull st' [])
       | Returned resp => Fulfilled resp
       | Threw e => Rejected e
       | Suspended => Pending
       end)
  | None => ([], Fulfilled (new_Response BodyNull st []))
  end.
End Route.

(** ** Reading a trace *)

(** The pathnames whose pattern was tested, in the order of the tests. *)
Definition tested_pathnames (evs : list event) : list string :=
  omap (fun ev => match ev with EvTest p _ => Some p | _ => None end) evs.

(** How many handler calls and how many [console.error] calls a trace holds. *)
Definition is_call (ev : event) : bool :=
  match ev with EvCall _ _ => true | _ => false end.

Definition is_log (ev : event) : bool :=
  match ev with EvLog _ => true | _ => false end.

Definition count_calls (evs : list event) : nat :=
  length (List.filter is_call evs).

Definition count_logs (evs : list event) : nat :=
  length (List.filter is_log evs).

(** [new Response(null, { status })], the response [route] builds itself. *)
Definition bare (st : Z) : Response := new_Response BodyNull st [].

(** ** Reachable router states *)

(** The calls a client can make on a router ([#add] is private). *)
Inductive call : Type :=
| CallGet (pathname : js_value) (handler : Handler)
| CallPost (pathname : js_value) (handler : Handler)
| CallStatic (pathname foldername : option string).

Definition run_call `{DenoAPI} (c : call) (r : Router) : Router * completion :=
  match c with
  | CallGet p h => get p h r
  | CallPost p h => post p h r
  | CallStatic p f => static p f r
  end.

(** The states a router goes through: [new Router()] followed by any
    calls, whether they throw or not. *)
Inductive reachable `{DenoAPI} : Router -> Prop :=
| reachable_new : reachable new_Router
| reachable_call c r : reachable r -> reachable (run_call c r).1.

(** ** The outcome of testing one pathname against a URL *)

Inductive tested : Type :=
| Invalid (e : js_error)          (* [new URLPattern] threw *)
| NoMatch                         (* [url.test(req.url)] is false *)
| Match (ps : option groups).     (* it is true; [ps] is [params] *)

Definition url_test `{URLPatternAPI} (pathname : string) (u : string) : tested :=
  match new_URLPattern pathname with
  | Err e => Invalid e
  | Ok pat => if test pat u then Match (exec pat u) else NoMatch
  end.

(** An entry the loop goes past: its pattern does not match, or it
    matches and the handler throws (or its promise rejects). *)
Definition passed_over `{URLPatternAPI} (rq : Request) (e : string * Handler)
  : bool :=
  match url_test e.1 (url rq) with
  | Invalid _ => false
  | NoMatch => true
  | Match ps =>
      match e.2 {| req := rq; params := ps |} with
      | Rejected _ => true
      | _ => false
      end
  end.

(** ** A reference implementation of the platform interfaces

    Used to run the router on concrete requests.  It covers pathname
    patterns made of literal segments, named segments [:name] and a
    trailing [:name*], which is all the repository uses.  As in the
    URL Pattern standard, a [:] that is not followed by a name and a
    name used twice are rejected by the constructor with a
    [TypeError]. *)
Module Reference.

Inductive part : Type :=
| Lit (s : string)
| Named (name : string)
| Star (name : string).

(** The segments between the slashes: ["/a/b"] gives [[""; "a"; "b"]]. *)
Fixpoint split_slash (s : string) : list string :=
  match s with
  | EmptyString => [""]
  | String c s' =>
      if Ascii.eqb c "/" then "" :: split_slash s'
      else match split_slash s' with
           | seg :: segs => String c seg :: segs
           | [] => [String c ""]
           end
  end.

(** The text before the first ['?'] or ['#']. *)
Fixpoint before_query (s : string) : string :=
  match s with
  | EmptyString => ""
  | String c s' =>
      if Ascii.eqb c "?" || Ascii.eqb c "#" then ""
      else String c (before_query s')
  end.

(** The path component of an absolute URL. *)
Definition url_pathname (u : string) : string :=
  let rest :=
    match index 0 "://" u with
    | Some i => substring (i + 3) (String.length u) u
    | None => u
    end in
  match index 0 "/" rest with
  | Some i => before_query (substring i (String.length rest) rest)
  | None => "/"
  end.

Definition ends_with_star (s : string) : bool :=
  let n := String.length s in
  (1 <=? n)%nat && String.eqb (substring (n - 1) 1 s) "*".

Definition parse_segment (seg : string) : result part :=
  match seg with
  | String c name =>
      if Ascii.eqb c ":" then
        let star := ends_with_star name in
        let name :=
          if star then substring 0 (String.length name - 1) name else name in
        if String.eqb name "" then Err (TypeError "Invalid pattern")
        else Ok (if star then Star name else Named name)
      else Ok (Lit seg)
  | EmptyString => Ok (Lit seg)
  end.

Fixpoint parse_segments (segs : list string) : result (list part) :=
  match segs with
  | [] => Ok []
  | seg :: segs' =>
      p ← parse_segment seg;
      ps ← parse_segments segs';
      Ok (p :: ps)
  end.

Definition part_names (p : part) : list string :=
  match p with
  | Lit _ => []
  | Named n => [n]
  | Star n => [n]
  end.

Definition compile (pathname : string) : result (list part) :=
  ps ← parse_segments (split_slash pathname);
  if bool_decide (NoDup (concat (part_names <$> ps))) then Ok ps
  else Err (TypeError "Duplicate name").

Definition nonempty (s : string) : bool := negb (String.eqb s "").

Fixpoint match_parts (ps : list part) (segs : list string) : option groups :=
  match ps with
  | [] =>
      match segs with
      | [] => Some ∅
      | _ :: _ => None
      end
  | Lit s :: ps' =>
      match segs with
      | seg :: segs' => if String.eqb s seg then match_parts ps' segs' else None
      | [] => None
      end
  | Named n :: ps' =>
      match segs with
      | seg :: segs' =>
          if nonempty seg then insert n seg <$> match_parts ps' segs' else None
      | [] => None
      end
  | Star n :: ps' =>
      match ps', segs with
      | [], [] => Some ∅
      | [], _ :: _ =>
          if forallb nonempty segs
          then Some {[ n := String.concat "/" segs ]} else None
      | _ :: _, _ => None
      end
  end.

Definition exec_ref (ps : list part) (u : string) : option groups :=
  match_parts ps (split_slash (url_pathname u)).

Definition test_ref (ps : list part) (u : string) : bool :=
  match exec_ref ps u with
  | Some _ => true
  | None => false
  end.

Lemma test_exec_ref ps u : test_ref ps u = true <-> is_Some (exec_ref ps u).
Proof.
  unfold test_ref. destruct (exec_ref ps u) as [g|]; split; intros Hx.
  - by exists g.
  - done.
  - discriminate.
  - by destruct Hx.
Qed.

Definition url_pattern : URLPatternAPI := {|
  URLPattern := list part;
  new_URLPattern := compile;
  test := test_ref;
  exec := exec_ref;
  test_exec := test_exec_ref
|}.

(** A file system holding the file [./static/app.js] and the
    directory [./static/docs]. *)
Definition deno : DenoAPI := {|
  Deno_open path :=
    if String.eqb path "./static/app.js" then Ok {| rid := 3 |}
    else if String.eqb path "./static/docs" then Ok {| rid := 4 |}
    else Err (Error "NotFound");
  read_all file :=
    if Pos.eqb (rid file) 3 then Ok "console.log(1)"
    else Err (Error "Is a directory")
|}.

End Reference.

(** ** Concrete handlers, routers and requests

    The routers of the repository's tests and a few more, run on the
    reference implementation of the platform. *)
Module Scenario.

Definition GET (u : string) : Request :=
  {| method := "GET"; url := u; payload := None |}.

Definition with_method (m u : string) : Request :=
  {| method := m; url := u; payload := None |}.

(** [() => new Response("ok")]. *)
Definition h_ok : Handler :=
  fun _ => Fulfilled (new_Response (BodyText "ok") 200 []).

(** [() => new Response("other")]. *)
Definition h_other : Handler :=
  fun _ => Fulfilled (new_Response (BodyText "other") 200 []).

(** [() => { throw new Error("TEST"); }]. *)
Definition h_throw : Handler :=
  fun _ => Rejected (Error "TEST").

(** [() => new Promise(() => {})]. *)
Definition h_never : Handler :=
  fun _ => Pending.

(** [({ params }) => new Response(params.id)]. *)
Definition h_id : Handler :=
  fun ctx =>
    match params_get "id" (params ctx) with
    | Ok v => Fulfilled (new_Response (BodyText (js_String v)) 200 [])
    | Err e => Rejected e
    end.

(** The router after the given calls, whatever they threw. *)
Definition router_after `{DenoAPI} (cs : list call) : Router :=
  foldl (fun r c => (run_call c r).1) new_Router cs.

Definition ref_router : list call -> Router := router_after (H := Reference.deno).
Definition ref_route : Router -> Request -> list event * promise Response :=
  route (H := Reference.url_pattern).

Definition two_routes : Router :=
  ref_router [CallGet (JSString "/a") h_ok; CallGet (JSString "/b") h_ok].

End Scenario.

(** * Properties *)

(** ** The registry *)

Lemma Map_set_keys_present k v (m : Table) :
  k ∈ Map_keys m ->
  exists l1 v0 l2,
    m = l1 ++ (k, v0) :: l2 /\ (k ∉ Map_keys l1) /\
    Map_set k v m = l1 ++ (k, v) :: l2.
Proof.
  unfold Map_keys. induction m as [|[k' v'] m IH]; intros Hin.
  - by apply elem_of_nil in Hin.
  - simpl. destruct (String.eqb_spec k' k) as [->|Hne].
    + exists [], v', m. repeat split. apply not_elem_of_nil.
    + apply elem_of_cons in Hin as [Heq|Hin]; [by subst|].
      destruct (IH Hin) as (l1 & v0 & l2 & -> & Hnot & ->).
      exists ((k', v') :: l1), v0, l2. repeat split.
      simpl. intros [Heq|Hin']%elem_of_cons; [by subst|done].
Qed.

Lemma Map_set_keys_absent k v (m : Table) :
  k ∉ Map_keys m -> Map_set k v m = m ++ [(k, v)].
Proof.
  unfold Map_keys. induction m as [|[k' v'] m IH]; intros Hnot; [done|].
  simpl in *. destruct (String.eqb_spec k' k) as [->|Hne].
  - exfalso. apply Hnot. by left.
  - rewrite IH; [done|]. intros Hin. apply Hnot. by right.
Qed.

Lemma Map_get_set k v (m : Table) : Map_get k (Map_set k v m) = Some v.
Proof.
  induction m as [|[k' v'] m IH]; simpl.
  - by rewrite String.eqb_refl.
  - destruct (String.eqb_spec k' k) as [->|Hne]; simpl.
    + by rewrite String.eqb_refl.
    + by destruct (String.eqb_spec k' k).
Qed.

Lemma Map_get_middle k v (l1 l2 : Table) :
  k ∉ Map_keys l1 -> Map_get k (l1 ++ (k, v) :: l2) = Some v.
Proof.
  unfold Map_keys. induction l1 as [|[k' v'] l1 IH]; simpl; intros Hnot.
  - by rewrite String.eqb_refl.
  - destruct (String.eqb_spec k' k) as [->|Hne].
    + exfalso. apply Hnot. by left.
    + apply IH. intros Hin. apply Hnot. by right.
Qed.

Lemma Map_keys_middle k v v' (l1 l2 : Table) :
  Map_keys (l1 ++ (k, v) :: l2) = Map_keys (l1 ++ (k, v') :: l2).
Proof. unfold Map_keys. by rewrite !fmap_app. Qed.

(** The guard rejects exactly the values that are not non-empty
    strings. *)
Lemma invalid_pathname_spec pathname :
  invalid_pathname pathname = false <->
  exists s, pathname = JSString s /\ s <> "".
Proof.
  unfold invalid_pathname. split.
  - destruct pathname as [| |b|n|s|o]; try done. simpl.
    destruct (String.eqb_spec s "") as [->|Hne]; [done|]. by exists s.
  - intros (s & -> & Hne). simpl. by destruct (String.eqb_spec s "").
Qed.

Lemma add_invalid meth pathname handler r :
  invalid_pathname pathname = true ->
  add meth pathname handler r = (r, Throw (Error "Invalid pathname")).
Proof. unfold add. by intros ->. Qed.

Lemma add_string meth s handler r :
  s <> "" ->
  add meth (JSString s) handler r =
  match routes r !! meth with
  | Some table =>
      ({| routes := <[meth := Map_set s handler table]> (routes r) |}, Normal)
  | None => (r, Normal)
  end.
Proof.
  intros Hne. unfold add.
  assert (invalid_pathname (JSString s) = false) as ->; [|done].
  apply invalid_pathname_spec. by exists s.
Qed.

(** The outer map always has exactly the keys [GET] and [POST]. *)
Lemma add_dom meth pathname handler r :
  dom (routes (add meth pathname handler r).1) = dom (routes r).
Proof.
  destruct (invalid_pathname pathname) eqn:Hg.
  - by rewrite add_invalid.
  - apply invalid_pathname_spec in Hg as (s & -> & Hne).
    rewrite add_string by done.
    destruct (routes r !! meth) as [table|] eqn:Hm; [simpl|done].
    rewrite dom_insert_L. apply elem_of_dom_2 in Hm. set_solver.
Qed.

Lemma reachable_dom `{DenoAPI} r :
  reachable r -> dom (routes r) = {["GET"; "POST"]}.
Proof.
  induction 1 as [|c r _ IH].
  - simpl. rewrite !dom_insert_L, dom_empty_L. set_solver.
  - rewrite <- IH. destruct c; apply add_dom.
Qed.

Lemma reachable_other_method `{DenoAPI} r meth :
  reachable r -> meth <> "GET" -> meth <> "POST" -> routes r !! meth = None.
Proof.
  intros Hr Hg Hp. apply not_elem_of_dom.
  rewrite (reachable_dom r Hr). set_solver.
Qed.

(** ** The dispatch loop *)

Section RouteFacts.
Context `{URLPatternAPI}.

Implicit Types (rq : Request) (l : Table) (st : Z).

Lemma emit_emit evs1 evs2 k : emit evs1 (emit evs2 k) = emit (evs1 ++ evs2) k.
Proof. unfold emit. simpl. by rewrite app_assoc. Qed.

Lemma emit_nil k : emit [] k = k.
Proof. by destruct k. Qed.

(** One iteration, by the outcome of the pattern test. *)
Lemma for_of_invalid rq p h l st e :
  url_test p (url rq) = Invalid e ->
  for_of rq ((p, h) :: l) st = ([], Threw e).
Proof.
  unfold url_test. simpl. destruct (new_URLPattern p) as [pat|e']; [|congruence].
  by destruct (test pat (url rq)).
Qed.

Lemma for_of_nomatch rq p h l st :
  url_test p (url rq) = NoMatch ->
  for_of rq ((p, h) :: l) st = emit [EvTest p false] (for_of rq l 404).
Proof.
  unfold url_test. simpl. destruct (new_URLPattern p) as [pat|e']; [|done].
  by destruct (test pat (url rq)).
Qed.

Lemma for_of_match rq p h l st ps :
  url_test p (url rq) = Match ps ->
  for_of rq ((p, h) :: l) st =
  let ctx := {| req := rq; params := ps |} in
  emit [EvTest p true; EvCall p ctx]
    match h ctx with
    | Fulfilled resp => ([], Returned resp)
    | Pending => ([], Suspended)
    | Rejected e => emit [EvLog e] (for_of rq l 500)
    end.
Proof.
  unfold url_test. simpl. destruct (new_URLPattern p) as [pat|e']; [|done].
  destruct (test pat (url rq)); [|done]. by intros [= <-].
Qed.

(** A structural match always comes with its parameters. *)
Lemma url_test_match_params p u ps :
  url_test p u = Match ps -> is_Some ps.
Proof.
  unfold url_test. destruct (new_URLPattern p) as [pat|e']; [|done].
  destruct (test pat u) eqn:Ht; [|done].
  intros [= <-]. by apply test_exec.
Qed.

(** The loop over a concatenation: the second part runs only if the
    first falls through, from the status the first part left. *)
Lemma for_of_app rq l1 l2 st :
  for_of rq (l1 ++ l2) st =
  match for_of rq l1 st with
  | (evs, Fallthrough st') => emit evs (for_of rq l2 st')
  | other => other
  end.
Proof.
  revert st. induction l1 as [|[p h] l1 IH]; intros st.
  - simpl. by rewrite emit_nil.
  - simpl. destruct (new_URLPattern p) as [pat|e]; [|done].
    destruct (test pat (url rq)).
    + destruct (h _) as [resp|e|]; [done| |done].
      rewrite IH. by destruct (for_of rq l1 500) as [evs [st'| | |]].
    + rewrite IH. by destruct (for_of rq l1 404) as [evs [st'| | |]].
Qed.

(** Entries whose pattern does not match are tested in order and
    leave [status] at 404. *)
Lemma for_of_all_nomatch rq l st :
  Forall (fun e => url_test e.1 (url rq) = NoMatch) l ->
  for_of rq l st =
  ((fun e => EvTest e.1 false) <$> l,
   Fallthrough (if l is [] then st else 404)).
Proof.
  intros Hall. revert st. induction Hall as [|[p h] l Hp _ IH]; intros st; [done|].
  rewrite (for_of_nomatch _ _ _ _ _ Hp), IH. unfold emit. simpl.
  by destruct l.
Qed.

(** Entries that are passed over never end the loop. *)
Lemma for_of_passed_over rq l st :
  Forall (fun e => passed_over rq e = true) l ->
  exists evs st', for_of rq l st = (evs, Fallthrough st').
Proof.
  intros Hall. revert st. induction Hall as [|[p h] l Hp _ IH]; intros st.
  - by exists [], st.
  - unfold passed_over in Hp. simpl in Hp.
    destruct (url_test p (url rq)) as [e| |ps] eqn:Ht; [done| |].
    + rewrite (for_of_nomatch _ _ _ _ _ Ht).
      destruct (IH 404) as (evs & st' & ->). by eexists _, _.
    + rewrite (for_of_match _ _ _ _ _ _ Ht). simpl.
      destruct (h _) as [resp|e|]; [done| |done].
      destruct (IH 500) as (evs & st' & ->). by eexists _, _.
Qed.

(** With valid patterns and settling handlers the loop returns a
    response or falls through. *)
Lemma for_of_completes rq l st :
  Forall (fun e => (exists pat, new_URLPattern e.1 = Ok pat) /\
                   forall ctx, e.2 ctx <> Pending) l ->
  (exists st', (for_of rq l st).2 = Fallthrough st') \/
  (exists resp, (for_of rq l st).2 = Returned resp).
Proof.
  intros Hall. revert st.
  induction Hall as [|[p h] l [[pat Hp] Hh] _ IH]; intros st.
  - left. by exists st.
  - simpl in *. rewrite Hp. destruct (test pat (url rq)).
    + destruct (h _) as [resp|e|] eqn:Hc.
      * right. by exists resp.
      * apply (IH 500).
      * by apply Hh in Hc.
    + apply (IH 404).
Qed.

(** A method without patterns: the loop body never runs. *)
Lemma route_no_patterns r rq :
  routes r !! method rq = None \/ routes r !! method rq = Some [] ->
  route r rq = ([], Fulfilled (new_Response BodyNull 405 [])).
Proof. unfold route. intros [Hx | Hx]; by rewrite Hx. Qed.

End RouteFacts.

(** ** Registration *)

(** C5. [#add] throws ["Invalid pathname"] exactly when the pathname is
    not a non-empty string; every non-empty string is accepted, for any
    method; and a call that throws leaves the registry as it was. *)
Theorem add_throws_iff_not_nonempty_string meth pathname handler r :
  ((add meth pathname handler r).2 = Normal <->
   exists s, pathname = JSString s /\ s <> "") /\
  ((add meth pathname handler r).2 = Throw (Error "Invalid pathname") <->
   ~ exists s, pathname = JSString s /\ s <> "") /\
  ((add meth pathname handler r).2 <> Normal ->
   (add meth pathname handler r).1 = r).
Proof.
  destruct (invalid_pathname pathname) eqn:Hg.
  - rewrite add_invalid by done. simpl.
    assert (~ exists s, pathname = JSString s /\ s <> "") as Hno.
    { intros Hex. apply invalid_pathname_spec in Hex. congruence. }
    split_and!; [split; [done|by intros ?]|done|done].
  - apply invalid_pathname_spec in Hg as Hex.
    destruct Hex as (s & -> & Hne). rewrite add_string by done.
    assert (exists s', JSString s = JSString s' /\ s' <> "") as Hex
      by (by exists s).
    destruct (routes r !! meth) as [table|]; simpl;
      (split_and!; [done|split; [done|by intros []]|done]).
Qed.

(** C9. Registering a handler for a (method, pattern) pair that is
    already present replaces the stored handler and keeps the pattern
    where it was: the table is the old one with the handler of that
    entry exchanged, and the tables of the other methods are the old
    ones. *)
Theorem add_existing_keeps_position meth k handler r table :
  routes r !! meth = Some table ->
  k <> "" ->
  k ∈ Map_keys table ->
  let r' := (add meth (JSString k) handler r).1 in
  exists l1 old l2,
    table = l1 ++ (k, old) :: l2 /\
    (k ∉ Map_keys l1) /\
    routes r' !! meth = Some (l1 ++ (k, handler) :: l2) /\
    Map_keys (l1 ++ (k, handler) :: l2) = Map_keys table /\
    Map_get k (l1 ++ (k, handler) :: l2) = Some handler /\
    forall meth', meth' <> meth -> routes r' !! meth' = routes r !! meth'.
Proof.
  intros Hm Hk Hin. cbv zeta. rewrite add_string, Hm by done. simpl.
  destruct (Map_set_keys_present k handler table Hin)
    as (l1 & old & l2 & -> & Hnot & ->).
  exists l1, old, l2. split_and!; try done.
  - by rewrite lookup_insert_eq.
  - apply Map_keys_middle.
  - by apply Map_get_middle.
  - intros meth' Hne. by rewrite lookup_insert_ne.
Qed.

(** C10. On a reachable router, registering under a method other than
    [GET] and [POST] with a non-empty string pattern completes
    normally and leaves the router as it was, so every later dispatch
    runs as if the call had not been made; a request with that method
    gets 405 without any pattern tested or handler called. *)
Theorem add_unsupported_method_is_dead `{DenoAPI} `{URLPatternAPI}
    meth s handler r :
  reachable r ->
  meth <> "GET" -> meth <> "POST" ->
  s <> "" ->
  add meth (JSString s) handler r = (r, Normal) /\
  routes (add meth (JSString s) handler r).1 !! "GET" = routes r !! "GET" /\
  routes (add meth (JSString s) handler r).1 !! "POST" = routes r !! "POST" /\
  (forall rq, route (add meth (JSString s) handler r).1 rq = route r rq) /\
  (forall rq, method rq = meth ->
     route (add meth (JSString s) handler r).1 rq =
     ([], Fulfilled (new_Response BodyNull 405 []))).
Proof.
  intros Hr Hg Hp Hs.
  assert (add meth (JSString s) handler r = (r, Normal)) as Hadd.
  { rewrite add_string by done.
    by rewrite (reachable_other_method r meth Hr Hg Hp). }
  rewrite Hadd. simpl. split_and!; try done.
  intros rq <-. apply route_no_patterns. left.
  by apply reachable_other_method.
Qed.

(** ** The static-directory handler *)

Example ends_with_js_cases :
  ends_with_js "app.js" = true /\ ends_with_js ".js" = true /\
  ends_with_js "js" = false /\ ends_with_js "app.jsx" = false /\
  ends_with_js "undefined" = false.
Proof. by repeat split. Qed.

Lemma static_pattern_nonempty (pathname : string) :
  pathname +:+ "/:path*" <> "".
Proof. by destruct pathname. Qed.

(** C8, for the failures the handler can see.  On a reachable router
    [static] completes normally and leaves, in the [GET] table, its
    handler under the pattern [pathname + "/:path*"]; the [POST] table
    is untouched.  That handler always fulfils with a response: when
    [Deno.open] rejects for the resolved file (or anything else fails
    inside its [try]) the response is 404 with body ["Not Found"]. *)
Theorem static_registers_recovering_handler `{DenoAPI}
    (pathname foldername : option string) r :
  reachable r ->
  let pattern := default "/static" pathname +:+ "/:path*" in
  let folder := default "static" foldername in
  let handler := static_handler folder in
  let not_found := new_Response (BodyText "Not Found") 404 [] in
  (static pathname foldername r).2 = Normal /\
  (exists table',
     routes (static pathname foldername r).1 !! "GET" = Some table' /\
     Map_get pattern table' = Some handler) /\
  routes (static pathname foldername r).1 !! "POST" = routes r !! "POST" /\
  (forall ctx g e,
     params ctx = Some g ->
     Deno_open ("./" +:+ folder +:+ "/" +:+ js_String (g !! "path")) = Err e ->
     handler ctx = Fulfilled not_found) /\
  (forall ctx e,
     static_try folder (params ctx) = Err e ->
     handler ctx = Fulfilled not_found) /\
  (forall ctx, exists resp, handler ctx = Fulfilled resp).
Proof.
  intros Hr. simpl.
  assert (is_Some (routes r !! "GET")) as [table Hget].
  { apply elem_of_dom. rewrite (reachable_dom r Hr). set_solver. }
  unfold static. rewrite add_string, Hget by apply static_pattern_nonempty.
  simpl.
  split_and!.
  - done.
  - eexists. split; [apply lookup_insert_eq|apply Map_get_set].
  - by rewrite lookup_insert_ne.
  - intros ctx g e Hps Hopen. unfold static_handler, static_try.
    rewrite Hps. simpl. by rewrite Hopen.
  - intros ctx e Htry. unfold static_handler. by rewrite Htry.
  - intros ctx. unfold static_handler.
    destruct (static_try _ _); by eexists.
Qed.

(** ** Dispatch *)

Section Dispatch.
Context `{URLPatternAPI}.

(** C7. A request whose method has no registered pattern gets an
    empty 405 response: the method is not a key of the registry
    (on a reachable router, any method other than [GET] and [POST])
    or its table is empty.  No pattern is tested. *)
Theorem route_405_without_patterns `{DenoAPI} r rq :
  reachable r ->
  (method rq <> "GET" /\ method rq <> "POST") \/
  routes r !! method rq = None \/
  routes r !! method rq = Some [] ->
  route r rq = ([], Fulfilled (new_Response BodyNull 405 [])).
Proof.
  intros Hr [[Hg Hp]|Hno]; apply route_no_patterns; [left|done].
  by apply reachable_other_method.
Qed.

(** C6. When the method has at least one registered pattern, the
    constructor accepts each of them and the URL matches none, every
    pattern is tested, in order, and the response is an empty 404. *)
Theorem route_404_when_nothing_matches r rq table :
  routes r !! method rq = Some table ->
  table <> [] ->
  Forall (fun e => url_test e.1 (url rq) = NoMatch) table ->
  route r rq =
  ((fun e => EvTest e.1 false) <$> table,
   Fulfilled (new_Response BodyNull 404 [])).
Proof.
  intros Hm Hne Hall. unfold route. rewrite Hm.
  rewrite (for_of_all_nomatch _ _ _ Hall). by destruct table.
Qed.

(** C2. The patterns are tested in registration order.  When the
    constructor accepts the patterns registered before the first one
    that matches, then at that one, wherever it stands in the table,
    the handler is called with the request and the parameters [exec]
    extracted; the response the handler gives is what [route] returns,
    and no later pattern is tested. *)
Theorem route_first_match r rq l1 p h l2 ps :
  routes r !! method rq = Some (l1 ++ (p, h) :: l2) ->
  Forall (fun e => url_test e.1 (url rq) = NoMatch) l1 ->
  url_test p (url rq) = Match ps ->
  let ctx := {| req := rq; params := ps |} in
  let seen := ((fun e => EvTest e.1 false) <$> l1)
                ++ [EvTest p true; EvCall p ctx] in
  is_Some ps /\
  (exists later, (route r rq).1 = seen ++ later) /\
  (forall resp, h ctx = Fulfilled resp ->
     route r rq = (seen, Fulfilled resp)) /\
  (h ctx = Pending -> route r rq = (seen, Pending)).
Proof.
  intros Hm Hl1 Hp. cbv zeta.
  split; [by eapply url_test_match_params|].
  unfold route. rewrite Hm, for_of_app, (for_of_all_nomatch _ _ _ Hl1).
  rewrite (for_of_match _ _ _ _ _ _ Hp). simpl.
  destruct (h _) as [resp|e|] eqn:Hh; simpl.
  - split_and!.
    + exists []. by rewrite app_nil_r.
    + by intros ? [= <-].
    + done.
  - destruct (for_of rq l2 500) as [evs ex]. simpl.
    split_and!; [|done|done].
    exists (EvLog e :: evs). by rewrite <- app_assoc.
  - split_and!.
    + exists []. by rewrite app_nil_r.
    + done.
    + done.
Qed.

(** C3. An earlier pattern matches and its handler throws (or its
    promise rejects); a later pattern matches too and its handler
    gives a response; the entries before and between them are
    passed over.  Then [route] returns the later handler's response,
    and the earlier error was logged. *)
Theorem route_later_success_after_failure
    r rq l1 p1 h1 l2 p2 h2 l3 ps1 e1 ps2 resp :
  routes r !! method rq = Some (l1 ++ (p1, h1) :: l2 ++ (p2, h2) :: l3) ->
  Forall (fun e => passed_over rq e = true) l1 ->
  Forall (fun e => passed_over rq e = true) l2 ->
  url_test p1 (url rq) = Match ps1 ->
  h1 {| req := rq; params := ps1 |} = Rejected e1 ->
  url_test p2 (url rq) = Match ps2 ->
  h2 {| req := rq; params := ps2 |} = Fulfilled resp ->
  (route r rq).2 = Fulfilled resp /\ EvLog e1 ∈ (route r rq).1.
Proof.
  intros Hm Hl1 Hl2 Hp1 Hh1 Hp2 Hh2. unfold route. rewrite Hm.
  rewrite for_of_app.
  destruct (for_of_passed_over rq l1 405 Hl1) as (evs1 & st1 & ->).
  rewrite (for_of_match _ _ _ _ _ _ Hp1). simpl. rewrite Hh1.
  rewrite for_of_app.
  destruct (for_of_passed_over rq l2 500 Hl2) as (evs2 & st2 & ->).
  rewrite (for_of_match _ _ _ _ _ _ Hp2). simpl. rewrite Hh2.
  simpl. split; [done|]. set_solver.
Qed.

(** A handler that throws at the last entry of the table gives an
    empty 500 response. *)
Lemma route_500_when_last_handler_fails r rq l p h ps e :
  routes r !! method rq = Some (l ++ [(p, h)]) ->
  Forall (fun e => passed_over rq e = true) l ->
  url_test p (url rq) = Match ps ->
  h {| req := rq; params := ps |} = Rejected e ->
  (route r rq).2 = Fulfilled (new_Response BodyNull 500 []).
Proof.
  intros Hm Hl Hp Hh. unfold route. rewrite Hm, for_of_app.
  destruct (for_of_passed_over rq l 405 Hl) as (evs & st' & ->).
  rewrite (for_of_match _ _ _ _ _ _ Hp). simpl. by rewrite Hh.
Qed.

(** X12. The pattern is built outside the [try] block: when the loop
    reaches an entry whose pattern the constructor rejects, the
    constructor's error leaves [route], whatever the remaining entries
    are. *)
Lemma route_rejects_on_invalid_pattern r rq l p h l' e :
  routes r !! method rq = Some (l ++ (p, h) :: l') ->
  Forall (fun e => passed_over rq e = true) l ->
  url_test p (url rq) = Invalid e ->
  (route r rq).2 = Rejected e.
Proof.
  intros Hm Hl Hp. unfold route. rewrite Hm, for_of_app.
  destruct (for_of_passed_over rq l 405 Hl) as (evs & st' & ->).
  by rewrite (for_of_invalid _ _ _ _ _ _ Hp).
Qed.

(** C1, as far as the code goes.  When every pattern registered for
    the request's method is accepted by the [URLPattern] constructor
    and no handler returns a promise that never settles, [route]
    fulfils with a response; in particular an error thrown by a
    handler is never passed on to the caller. *)
Theorem route_resolves r rq :
  (forall table, routes r !! method rq = Some table ->
     Forall (fun e => (exists pat, new_URLPattern e.1 = Ok pat) /\
                      forall ctx, e.2 ctx <> Pending) table) ->
  exists resp, (route r rq).2 = Fulfilled resp.
Proof.
  intros Hok. unfold route.
  destruct (routes r !! method rq) as [table|] eqn:Hm; [|by eexists].
  destruct (for_of_completes rq table 405 (Hok table eq_refl))
    as [[st' Hex]|[resp Hex]];
    destruct (for_of rq table 405) as [evs ex]; simpl in *; subst;
    by eexists.
Qed.

End Dispatch.

(** * The router on concrete requests *)

Import Scenario.

(** ** The repository's own tests *)

Example test_invalid_pathname_throws :
  get (JSString "") h_ok new_Router = (new_Router, Throw (Error "Invalid pathname")).
Proof. reflexivity. Qed.

Example test_get_route_with_params :
  (ref_route (ref_router [CallGet (JSString "/test/:id") h_id])
     (GET "http://localhost/test/123")).2
  = Fulfilled (new_Response (BodyText "123") 200 []).
Proof. vm_compute. reflexivity. Qed.

Example test_unknown_method_405 :
  ref_route (ref_router []) (with_method "TEST" "http://localhost/test")
  = ([], Fulfilled (new_Response BodyNull 405 [])).
Proof. vm_compute. reflexivity. Qed.

Example test_unknown_route_404 :
  ref_route (ref_router [CallGet (JSString "/test") h_ok])
    (GET "http://localhost/bar")
  = ([EvTest "/test" false], Fulfilled (new_Response BodyNull 404 [])).
Proof. vm_compute. reflexivity. Qed.

Example test_server_error_500 :
  (ref_route (ref_router [CallGet (JSString "/test") h_throw])
     (GET "http://localhost/test")).2
  = Fulfilled (new_Response BodyNull 500 []).
Proof. vm_compute. reflexivity. Qed.

Example test_static_files :
  (ref_route (ref_router [CallStatic None None])
     (GET "http://localhost/static/app.js")).2
  = Fulfilled (new_Response (BodyStream {| rid := 3 |}) 200
                 [("content-type", "text/javascript")]) /\
  (ref_route (ref_router [CallStatic None None])
     (GET "http://localhost/static/missing.txt")).2
  = Fulfilled (new_Response (BodyText "Not Found") 404 []).
Proof. split; vm_compute; reflexivity. Qed.

(** ** Dispatches that do not end as the specification says *)

(** C4, on the code.  The handler of ["/test"] throws and the only
    later pattern, ["/other"], does not match: the catch block sets
    [status] to 500, the next iteration overwrites it with 404, and the
    response is an empty 404. *)
Theorem route_handler_error_overwritten_by_404 :
  ref_route
    (ref_router [CallGet (JSString "/test") h_throw;
                 CallGet (JSString "/other") h_ok])
    (GET "http://localhost/test")
  = ([EvTest "/test" true;
      EvCall "/test" {| req := GET "http://localhost/test"; params := Some ∅ |};
      EvLog (Error "TEST");
      EvTest "/other" false],
     Fulfilled (new_Response BodyNull 404 [])).
Proof. vm_compute. reflexivity. Qed.

(** C2, as stated, fails.  ["/:"] and ["/x"] are registered in this
    order.  The URL [/x] does not match ["/:"], which is no pattern at
    all, so ["/x"] is the first pattern that matches, and its handler
    would answer; but the constructor throws at ["/:"] before ["/x"]
    is tested, and [route] rejects without any handler called. *)
Lemma route_rejects_before_first_match :
  routes (ref_router [CallGet (JSString "/:") h_other;
                      CallGet (JSString "/x") h_ok]) !! "GET"
  = Some [("/:", h_other); ("/x", h_ok)] /\
  url_test (H := Reference.url_pattern) "/:" "http://localhost/x"
  = Invalid (TypeError "Invalid pattern") /\
  url_test (H := Reference.url_pattern) "/x" "http://localhost/x"
  = Match (Some ∅) /\
  h_ok {| req := GET "http://localhost/x"; params := Some ∅ |}
  = Fulfilled (new_Response (BodyText "ok") 200 []) /\
  ref_route (ref_router [CallGet (JSString "/:") h_other;
                         CallGet (JSString "/x") h_ok])
    (GET "http://localhost/x")
  = ([], Rejected (TypeError "Invalid pattern")).
Proof. split_and!; vm_compute; reflexivity. Qed.

(** C6, as stated, fails.  The [GET] table holds ["/a"] and ["/:"];
    the URL [/x] matches neither, yet the response is not a 404: the
    constructor throws at ["/:"] and [route] rejects. *)
Lemma route_rejects_when_nothing_matches :
  routes (ref_router [CallGet (JSString "/a") h_ok;
                      CallGet (JSString "/:") h_ok]) !! "GET"
  = Some [("/a", h_ok); ("/:", h_ok)] /\
  url_test (H := Reference.url_pattern) "/a" "http://localhost/x"
  = NoMatch /\
  url_test (H := Reference.url_pattern) "/:" "http://localhost/x"
  = Invalid (TypeError "Invalid pattern") /\
  ref_route (ref_router [CallGet (JSString "/a") h_ok;
                         CallGet (JSString "/:") h_ok])
    (GET "http://localhost/x")
  = ([EvTest "/a" false], Rejected (TypeError "Invalid pattern")).
Proof. split_and!; vm_compute; reflexivity. Qed.

(** C8, as stated, fails for a failure of the read.  [./static/docs]
    is a directory: [Deno.open] gives a handle, so the handler returns
    200 with its stream, and the read fails only when the stream is
    consumed, after the handler has returned; the response is not the
    404 ["Not Found"]. *)
Lemma static_read_failure_is_not_404 :
  Deno_open (DenoAPI := Reference.deno) "./static/docs" = Ok {| rid := 4 |} /\
  read_all (DenoAPI := Reference.deno) {| rid := 4 |}
  = Err (Error "Is a directory") /\
  static_handler (H := Reference.deno) "static"
    {| req := GET "http://localhost/static/docs";
       params := Some {[ "path" := "docs" ]} |}
  = Fulfilled (new_Response (BodyStream {| rid := 4 |}) 200 []) /\
  (ref_route (ref_router [CallStatic None None])
     (GET "http://localhost/static/docs")).2
  = Fulfilled (new_Response (BodyStream {| rid := 4 |}) 200 []).
Proof. split_and!; vm_compute; reflexivity. Qed.

(** C1, as stated, fails.  ["/:"] is a non-empty string, so it is
    registered, but [new URLPattern] rejects it when the request is
    dispatched and the [TypeError] leaves [route]; and a handler whose
    promise never settles leaves [route] pending. *)
Lemma route_rejects_or_stays_pending :
  (get (JSString "/:") h_ok new_Router).2 = Normal /\
  (ref_route (ref_router [CallGet (JSString "/:") h_ok])
     (GET "http://localhost/x")).2
  = Rejected (TypeError "Invalid pattern") /\
  (ref_route (ref_router [CallGet (JSString "/test") h_never])
     (GET "http://localhost/test")).2
  = Pending.
Proof. split_and!; vm_compute; reflexivity. Qed.

(** ** The theorems at concrete inputs *)

Lemma add_existing_keeps_position_witness :
  exists l1 old l2,
    [("/a", h_ok); ("/b", h_ok)] = l1 ++ ("/b", old) :: l2 /\
    ("/b" ∉ Map_keys l1) /\
    routes (add "GET" (JSString "/b") h_other two_routes).1 !! "GET"
    = Some (l1 ++ ("/b", h_other) :: l2) /\
    Map_keys (l1 ++ ("/b", h_other) :: l2) = Map_keys [("/a", h_ok); ("/b", h_ok)] /\
    Map_get "/b" (l1 ++ ("/b", h_other) :: l2) = Some h_other /\
    forall meth', meth' <> "GET" ->
      routes (add "GET" (JSString "/b") h_other two_routes).1 !! meth'
      = routes two_routes !! meth'.
Proof.
  apply (add_existing_keeps_position "GET" "/b" h_other two_routes
           [("/a", h_ok); ("/b", h_ok)]).
  - vm_compute. reflexivity.
  - discriminate.
  - right. left.
Defined.

Lemma add_unsupported_method_is_dead_witness :
  add "PUT" (JSString "/x") h_ok (ref_router []) = (ref_router [], Normal) /\
  ref_route (add "PUT" (JSString "/x") h_ok (ref_router [])).1
    (with_method "PUT" "http://localhost/x")
  = ([], Fulfilled (new_Response BodyNull 405 [])).
Proof.
  destruct (add_unsupported_method_is_dead
              (H := Reference.deno) (H0 := Reference.url_pattern)
              "PUT" "/x" h_ok (ref_router []))
    as (Hadd & _ & _ & _ & Hroute).
  - apply reachable_new.
  - discriminate.
  - discriminate.
  - discriminate.
  - split; [exact Hadd|]. apply Hroute. reflexivity.
Defined.

Lemma static_registers_recovering_handler_witness :
  (static (H := Reference.deno) None None new_Router).2 = Normal /\
  static_handler (H := Reference.deno) "static"
    {| req := GET "http://localhost/static/missing.txt";
       params := Some {[ "path" := "missing.txt" ]} |}
  = Fulfilled (new_Response (BodyText "Not Found") 404 []).
Proof.
  destruct (static_registers_recovering_handler
              (H := Reference.deno) None None new_Router)
    as (Hnormal & _ & _ & Hopen & _).
  - apply reachable_new.
  - split; [exact Hnormal|].
    apply (Hopen _ {[ "path" := "missing.txt" ]} (Error "NotFound")).
    + reflexivity.
    + vm_compute. reflexivity.
Defined.

Lemma route_405_without_patterns_witness :
  ref_route (ref_router []) (with_method "TEST" "http://localhost/test")
  = ([], Fulfilled (new_Response BodyNull 405 [])) /\
  ref_route (ref_router []) (GET "http://localhost/test")
  = ([], Fulfilled (new_Response BodyNull 405 [])).
Proof.
  split.
  - apply (route_405_without_patterns
             (H := Reference.url_pattern) (H0 := Reference.deno)).
    + apply reachable_new.
    + left. split; discriminate.
  - apply (route_405_without_patterns
             (H := Reference.url_pattern) (H0 := Reference.deno)).
    + apply reachable_new.
    + right. right. vm_compute. reflexivity.
Defined.

Lemma route_404_when_nothing_matches_witness :
  ref_route (ref_router [CallGet (JSString "/test") h_ok;
                         CallGet (JSString "/items/:id") h_id])
    (GET "http://localhost/bar")
  = ([EvTest "/test" false; EvTest "/items/:id" false],
     Fulfilled (new_Response BodyNull 404 [])).
Proof.
  apply (route_404_when_nothing_matches (H := Reference.url_pattern) _ _
           [("/test", h_ok); ("/items/:id", h_id)]).
  - vm_compute. reflexivity.
  - discriminate.
  - repeat constructor.
Defined.

Lemma route_first_match_witness :
  ref_route (ref_router [CallGet (JSString "/about") h_ok;
                         CallGet (JSString "/items/:id") h_id;
                         CallGet (JSString "/items/42") h_other])
    (GET "http://localhost/items/42")
  = ([EvTest "/about" false;
      EvTest "/items/:id" true;
      EvCall "/items/:id"
        {| req := GET "http://localhost/items/42";
           params := Some {[ "id" := "42" ]} |}],
     Fulfilled (new_Response (BodyText "42") 200 [])).
Proof.
  destruct (route_first_match (H := Reference.url_pattern)
              (ref_router [CallGet (JSString "/about") h_ok;
                           CallGet (JSString "/items/:id") h_id;
                           CallGet (JSString "/items/42") h_other])
              (GET "http://localhost/items/42")
              [("/about", h_ok)] "/items/:id" h_id [("/items/42", h_other)]
              (Some {[ "id" := "42" ]}))
    as (_ & _ & Hret & _).
  - vm_compute. reflexivity.
  - repeat constructor.
  - vm_compute. reflexivity.
  - apply Hret. vm_compute. reflexivity.
Defined.

Lemma route_later_success_after_failure_witness :
  (ref_route (ref_router [CallGet (JSString "/test") h_throw;
                          CallGet (JSString "/:name") h_ok])
     (GET "http://localhost/test")).2
  = Fulfilled (new_Response (BodyText "ok") 200 []).
Proof.
  apply (route_later_success_after_failure (H := Reference.url_pattern)
           _ _ [] "/test" h_throw [] "/:name" h_ok []
           (Some ∅) (Error "TEST") (Some {[ "name" := "test" ]})).
  - vm_compute. reflexivity.
  - constructor.
  - constructor.
  - vm_compute. reflexivity.
  - reflexivity.
  - vm_compute. reflexivity.
  - reflexivity.
Defined.

Lemma route_resolves_witness :
  exists resp,
    (ref_route (ref_router [CallGet (JSString "/test") h_throw;
                            CallGet (JSString "/other") h_ok])
       (GET "http://localhost/test")).2 = Fulfilled resp.
Proof.
  apply (route_resolves (H := Reference.url_pattern)).
  intros table Hm. vm_compute in Hm. injection Hm as <-.
  repeat constructor; try (eexists; vm_compute; reflexivity); discriminate.
Defined.

(** * Further properties of the registry *)

Lemma Map_keys_set k v (m : Table) :
  Map_keys (Map_set k v m) =
  if bool_decide (k ∈ Map_keys m) then Map_keys m else Map_keys m ++ [k].
Proof.
  case_bool_decide as Hin.
  - destruct (Map_set_keys_present k v m Hin) as (l1 & v0 & l2 & -> & _ & ->).
    apply Map_keys_middle.
  - rewrite Map_set_keys_absent by done. unfold Map_keys. by rewrite fmap_app.
Qed.

Lemma Map_set_NoDup k v (m : Table) :
  NoDup (Map_keys m) -> NoDup (Map_keys (Map_set k v m)).
Proof.
  intros Hnd. rewrite Map_keys_set. case_bool_decide as Hin; [done|].
  apply NoDup_app. split_and!; [done| |apply NoDup_singleton].
  intros x Hx ->%list_elem_of_singleton. done.
Qed.

Lemma Map_set_twice k v1 v2 (m : Table) :
  Map_set k v2 (Map_set k v1 m) = Map_set k v2 m.
Proof.
  induction m as [|[k' v'] m IH]; simpl.
  - by rewrite String.eqb_refl.
  - destruct (String.eqb_spec k' k) as [->|Hne]; simpl.
    + by rewrite String.eqb_refl.
    + destruct (String.eqb_spec k' k); [done|]. by rewrite IH.
Qed.

(** What [#add] does to the table of each method. *)
Lemma add_lookup meth pathname handler r meth' :
  routes (add meth pathname handler r).1 !! meth' =
  match pathname with
  | JSString s =>
      if bool_decide (s <> "" /\ meth' = meth)
      then Map_set s handler <$> routes r !! meth'
      else routes r !! meth'
  | _ => routes r !! meth'
  end.
Proof.
  destruct (invalid_pathname pathname) eqn:Hg.
  - rewrite add_invalid by done. simpl.
    destruct pathname as [| |b|n|s|o]; try done.
    case_bool_decide as Hc; [|done]. destruct Hc as [Hne _].
    assert (invalid_pathname (JSString s) = false); [|congruence].
    apply invalid_pathname_spec. by exists s.
  - apply invalid_pathname_spec in Hg as (s & -> & Hne).
    rewrite add_string by done.
    destruct (routes r !! meth) as [table|] eqn:Hm; simpl.
    + case_bool_decide as Hc.
      * destruct Hc as [_ ->]. by rewrite lookup_insert_eq, Hm.
      * rewrite lookup_insert_ne; [done|]. intros <-. by apply Hc.
    + case_bool_decide as Hc; [|done]. destruct Hc as [_ ->]. by rewrite Hm.
Qed.

Lemma run_call_is_add `{DenoAPI} c r :
  exists meth pathname handler, run_call c r = add meth pathname handler r.
Proof. destruct c; by eexists _, _, _. Qed.

(** X1. The registry invariant.  Whatever calls were made, and whether
    they threw or not, the registry has exactly the two tables [GET]
    and [POST], no pattern occurs twice in a table, and no table holds
    the empty pattern. *)
Theorem reachable_registry_invariant `{DenoAPI} r :
  reachable r ->
  dom (routes r) = {["GET"; "POST"]} /\
  forall meth table,
    routes r !! meth = Some table ->
    NoDup (Map_keys table) /\ ("" ∉ Map_keys table).
Proof.
  intros Hr. split; [by apply reachable_dom|].
  induction Hr as [|c r Hr IH]; intros meth table Hm.
  - assert (table = []) as ->.
    { unfold new_Router in Hm. simpl in Hm.
      destruct (decide (meth = "GET")) as [->|Hg].
      - rewrite lookup_insert_eq in Hm. congruence.
      - rewrite lookup_insert_ne in Hm by done.
        destruct (decide (meth = "POST")) as [->|Hp].
        + rewrite lookup_insert_eq in Hm. congruence.
        + by rewrite lookup_insert_ne in Hm. }
    split; [apply NoDup_nil_2|apply not_elem_of_nil].
  - destruct (run_call_is_add c r) as (m & p & h & Hc).
    rewrite Hc, add_lookup in Hm.
    destruct p as [| |b|n|s|o]; cbv iota beta in Hm; try exact (IH _ _ Hm).
    destruct (decide (s <> "" /\ meth = m)) as [Hcase|Hcase];
      [rewrite bool_decide_eq_true_2 in Hm by done
      |rewrite bool_decide_eq_false_2 in Hm by done; exact (IH _ _ Hm)].
    destruct Hcase as [Hne ->].
    destruct (routes r !! m) as [old|] eqn:Hold; [|done].
    simpl in Hm. injection Hm as <-.
    destruct (IH m old Hold) as [Hnd Hemp]. split.
    + by apply Map_set_NoDup.
    + rewrite Map_keys_set. case_bool_decide; [done|].
      intros [Hin|Hin%list_elem_of_singleton]%elem_of_app; [done|].
      by apply Hne.
Qed.

(** X2. Registration never removes or reorders patterns.  After any
    call, the patterns a table held before are the first patterns of
    the table, in the same order, and at most one pattern is new. *)
Theorem registration_keeps_order `{DenoAPI} c r meth table :
  routes r !! meth = Some table ->
  exists table',
    routes (run_call c r).1 !! meth = Some table' /\
    Map_keys table `prefix_of` Map_keys table' /\
    (length table' <= S (length table))%nat.
Proof.
  intros Hm. destruct (run_call_is_add c r) as (m & p & h & ->).
  rewrite add_lookup.
  assert (exists table', Some table = Some table' /\
            Map_keys table `prefix_of` Map_keys table' /\
            (length table' <= S (length table))%nat) as Hsame.
  { exists table. split_and!; [done|done|lia]. }
  destruct p as [| |b|n|s|o]; cbv iota beta; rewrite Hm; try done.
  case_bool_decide as Hcase; [|done]. simpl.
  exists (Map_set s h table). split; [done|].
  assert (length (Map_set s h table) = length (Map_keys (Map_set s h table)))
    as -> by (unfold Map_keys; by rewrite length_fmap).
  rewrite Map_keys_set. case_bool_decide.
  - split; [done|]. unfold Map_keys. rewrite length_fmap. lia.
  - split; [by apply prefix_app_r|].
    unfold Map_keys. rewrite length_app, length_fmap. simpl. lia.
Qed.

(** X3. Registering twice under the same method and pattern is the
    same as registering the second handler only: the last write wins,
    and nothing else remembers the first. *)
Theorem add_twice_last_wins meth pathname h1 h2 r :
  add meth pathname h2 (add meth pathname h1 r).1 = add meth pathname h2 r.
Proof.
  destruct (invalid_pathname pathname) eqn:Hg.
  - by rewrite !add_invalid.
  - apply invalid_pathname_spec in Hg as (s & -> & Hne).
    rewrite !add_string by done.
    destruct (routes r !! meth) as [table|] eqn:Hm; simpl; [|by rewrite Hm].
    by rewrite lookup_insert_eq, insert_insert_eq, Map_set_twice.
Qed.

(** X4. A registration under one method, accepted or not, changes no
    dispatch of a request with another method. *)
Theorem add_other_method_frame `{URLPatternAPI} meth pathname handler r rq :
  method rq <> meth ->
  route (add meth pathname handler r).1 rq = route r rq.
Proof.
  intros Hne. unfold route. rewrite add_lookup.
  destruct pathname as [| |b|n|s|o]; try done.
  cbv iota beta. case_bool_decide as Hcase; [|done]. by destruct Hcase.
Qed.

(** * Further properties of the dispatch *)

Section DispatchMore.
Context `{URLPatternAPI}.

Implicit Types (rq : Request) (l : Table) (st : Z).

Lemma emit_snd evs k : (emit evs k).2 = k.2.
Proof. done. Qed.

Lemma emit_fst evs k : (emit evs k).1 = evs ++ k.1.
Proof. done. Qed.

Lemma passed_over_cons_inv rq p h l :
  Forall (fun e => passed_over rq e = true) ((p, h) :: l) ->
  (url_test p (url rq) = NoMatch \/
   exists ps e, url_test p (url rq) = Match ps /\
                h {| req := rq; params := ps |} = Rejected e) /\
  Forall (fun e => passed_over rq e = true) l.
Proof.
  intros [Hp Hl]%Forall_cons. split; [|done].
  unfold passed_over in Hp. simpl in Hp.
  destruct (url_test p (url rq)) as [e| |ps]; [done|by left|].
  destruct (h _) as [resp|e|] eqn:Hh; [done| |done].
  right. by exists ps, e.
Qed.

(** How the loop can end, and what each ending says about the table. *)
Lemma for_of_exit rq l st :
  match (for_of rq l st).2 with
  | Fallthrough st' =>
      Forall (fun e => passed_over rq e = true) l /\
      (l = [] /\ st' = st \/ l <> [] /\ (st' = 404 \/ st' = 500))
  | Returned resp =>
      exists p h ps,
        (p, h) ∈ l /\ url_test p (url rq) = Match ps /\
        h {| req := rq; params := ps |} = Fulfilled resp
  | Threw e => exists p h, (p, h) ∈ l /\ url_test p (url rq) = Invalid e
  | Suspended =>
      exists p h ps,
        (p, h) ∈ l /\ url_test p (url rq) = Match ps /\
        h {| req := rq; params := ps |} = Pending
  end.
Proof.
  revert st. induction l as [|[p h] l IH]; intros st.
  - simpl. split; [done|]. by left.
  - assert (forall st0,
      match (for_of rq l st0).2 with
      | Fallthrough st' =>
          Forall (fun e => passed_over rq e = true) l /\
          (st0 = 404 \/ st0 = 500 -> st' = 404 \/ st' = 500)
      | Returned resp =>
          exists p' h' ps, (p', h') ∈ (p, h) :: l /\
            url_test p' (url rq) = Match ps /\
            h' {| req := rq; params := ps |} = Fulfilled resp
      | Threw e =>
          exists p' h', (p', h') ∈ (p, h) :: l /\ url_test p' (url rq) = Invalid e
      | Suspended =>
          exists p' h' ps, (p', h') ∈ (p, h) :: l /\
            url_test p' (url rq) = Match ps /\
            h' {| req := rq; params := ps |} = Pending
      end) as Hrest.
    { intros st0. specialize (IH st0).
      destruct ((for_of rq l st0).2) as [st'|resp|e|].
      - destruct IH as [Hall [[-> ->]|[_ Hst]]]; split; tauto.
      - destruct IH as (p' & h' & ps & Hin & ?). exists p', h', ps.
        split; [by right|done].
      - destruct IH as (p' & h' & Hin & ?). exists p', h'.
        split; [by right|done].
      - destruct IH as (p' & h' & ps & Hin & ?). exists p', h', ps.
        split; [by right|done]. }
    destruct (url_test p (url rq)) as [e| |ps] eqn:Ht.
    + rewrite (for_of_invalid _ _ _ _ _ _ Ht). simpl.
      exists p, h. split; [by left|done].
    + rewrite (for_of_nomatch _ _ _ _ _ Ht), emit_snd.
      specialize (Hrest 404).
      destruct ((for_of rq l 404).2) as [st'|resp|e|]; try done.
      destruct Hrest as [Hall Hst]. split.
      * apply Forall_cons. split; [|done]. unfold passed_over. simpl.
        by rewrite Ht.
      * right. split; [done|]. apply Hst. by left.
    + rewrite (for_of_match _ _ _ _ _ _ Ht). cbv zeta. rewrite emit_snd.
      destruct (h _) as [resp|e|] eqn:Hh; simpl.
      * exists p, h, ps. split; [by left|done].
      * specialize (Hrest 500).
        destruct ((for_of rq l 500).2) as [st'|resp|e'|]; try done.
        destruct Hrest as [Hall Hst]. split.
        -- apply Forall_cons. split; [|done]. unfold passed_over. simpl.
           by rewrite Ht, Hh.
        -- right. split; [done|]. apply Hst. by right.
      * exists p, h, ps. split; [by left|done].
Qed.

(** The patterns tested by the loop are the first patterns of the
    table, in table order. *)
Lemma for_of_tested_prefix rq l st :
  tested_pathnames (for_of rq l st).1 `prefix_of` l.*1.
Proof.
  revert st. induction l as [|[p h] l IH]; intros st; [done|].
  destruct (url_test p (url rq)) as [e| |ps] eqn:Ht.
  - rewrite (for_of_invalid _ _ _ _ _ _ Ht). apply prefix_nil.
  - rewrite (for_of_nomatch _ _ _ _ _ Ht), emit_fst. simpl.
    apply prefix_cons, IH.
  - rewrite (for_of_match _ _ _ _ _ _ Ht). cbv zeta. rewrite emit_fst.
    destruct (h _) as [resp|e|]; simpl.
    + apply prefix_cons, prefix_nil.
    + apply prefix_cons, IH.
    + apply prefix_cons, prefix_nil.
Qed.

(** X5. A new pattern never takes over a request that is already
    answered.  When the dispatch of a request ends inside the table
    (a handler returned, or the dispatch threw or hangs), registering a
    pattern that the table does not hold yet, under any method, leaves
    that dispatch exactly as it was. *)
Theorem add_fresh_pattern_keeps_answers meth k handler r rq table :
  routes r !! method rq = Some table ->
  (forall st, (for_of rq table 405).2 <> Fallthrough st) ->
  k ∉ Map_keys table ->
  route (add meth (JSString k) handler r).1 rq = route r rq.
Proof.
  intros Hm Hend Hfresh. unfold route. rewrite add_lookup.
  case_bool_decide as Hcase; [|done]. destruct Hcase as [_ Heq].
  rewrite Hm. simpl. rewrite Map_set_keys_absent, for_of_app by done.
  destruct (for_of rq table 405) as [evs [st'| | |]]; try done.
  by destruct (Hend st').
Qed.


(** X7. The status of a dispatch that finds no answer is the status
    the last entry of the table left.  When every entry is passed over
    (no match, or a match whose handler failed), the response is empty
    with status 404 if the last pattern did not match and 500 if the
    last pattern matched and its handler failed, whatever happened at
    the entries before. *)
Theorem route_status_is_last_entry r rq l p h :
  routes r !! method rq = Some (l ++ [(p, h)]) ->
  Forall (fun e => passed_over rq e = true) (l ++ [(p, h)]) ->
  (route r rq).2 =
  Fulfilled (bare (match url_test p (url rq) with
                   | NoMatch => 404
                   | _ => 500
                   end)).
Proof.
  intros Hm [Hl Hlast]%Forall_app.
  apply passed_over_cons_inv in Hlast as [Hlast _].
  unfold route. rewrite Hm, for_of_app.
  destruct (for_of_passed_over rq l 405 Hl) as (evs & st' & ->).
  destruct Hlast as [Ht|(ps & e & Ht & Hh)]; rewrite Ht.
  - by rewrite (for_of_nomatch _ _ _ _ _ Ht).
  - rewrite (for_of_match _ _ _ _ _ _ Ht). cbv zeta. by rewrite Hh.
Qed.

(** X8. A dispatch tests only patterns of the request's method, each
    at most once and in registration order: the tested pathnames are
    the first keys of that method's table.  For a method without a
    table nothing is tested. *)
Theorem route_tests_in_table_order r rq :
  tested_pathnames (route r rq).1
    `prefix_of` Map_keys (default [] (routes r !! method rq)).
Proof.
  unfold route. destruct (routes r !! method rq) as [table|]; simpl; [|done].
  pose proof (for_of_tested_prefix rq table 405) as Hp.
  by destruct (for_of rq table 405) as [evs ex].
Qed.

(** X9. Where a response comes from.  A response of [route] is either
    the empty 405 of a method without patterns, or an empty 404 or 500
    after every entry of a non-empty table was passed over, or the
    response that the handler of a matching entry returned for this
    request. *)
Theorem route_response_origin r rq resp :
  (route r rq).2 = Fulfilled resp ->
  (resp = bare 405 /\
   (routes r !! method rq = None \/ routes r !! method rq = Some [])) \/
  ((resp = bare 404 \/ resp = bare 500) /\
   exists table,
     routes r !! method rq = Some table /\ table <> [] /\
     Forall (fun e => passed_over rq e = true) table) \/
  (exists table p h ps,
     routes r !! method rq = Some table /\ (p, h) ∈ table /\
     url_test p (url rq) = Match ps /\
     h {| req := rq; params := ps |} = Fulfilled resp).
Proof.
  unfold route. destruct (routes r !! method rq) as [table|] eqn:Hm.
  - pose proof (for_of_exit rq table 405) as Hex.
    destruct (for_of rq table 405) as [evs [st'|resp'|e|]]; simpl in *;
      intros [= <-].
    + destruct Hex as [Hall [[-> ->]|[Hne Hst]]].
      * left. split; [done|by right].
      * right. left. split.
        -- destruct Hst as [-> | ->]; [by left|by right].
        -- by exists table.
    + right. right. destruct Hex as (p & h & ps & ?). by exists table, p, h, ps.
  - intros [= <-]. left. split; [done|by left].
Qed.

(** X10. Every failed handler call is logged, exactly once, and
    nothing else is.  In the trace of the loop the handler calls
    outnumber the [console.error] calls by one when a handler ended
    the dispatch (it returned, or its promise is pending) and equal
    them otherwise. *)
Theorem for_of_logs_every_failed_call rq l st :
  count_calls (for_of rq l st).1 =
  (count_logs (for_of rq l st).1 +
   match (for_of rq l st).2 with
   | Returned _ | Suspended => 1
   | Fallthrough _ | Threw _ => 0
   end)%nat.
Proof.
  revert st. induction l as [|[p h] l IH]; intros st; [done|].
  destruct (url_test p (url rq)) as [e| |ps] eqn:Ht.
  - by rewrite (for_of_invalid _ _ _ _ _ _ Ht).
  - rewrite (for_of_nomatch _ _ _ _ _ Ht), emit_fst, emit_snd.
    unfold count_calls, count_logs in *. simpl. apply IH.
  - rewrite (for_of_match _ _ _ _ _ _ Ht). cbv zeta.
    rewrite emit_fst, emit_snd.
    destruct (h _) as [resp|e|]; unfold count_calls, count_logs in *; simpl;
      [done| |done].
    f_equal. apply IH.
Qed.

End DispatchMore.

(** * What a dispatch never does *)

Section DispatchNever.
Context `{URLPatternAPI}.

Lemma elem_of_emit ev evs k :
  ev ∈ (emit evs k).1 <-> ev ∈ evs \/ ev ∈ k.1.
Proof. unfold emit. simpl. apply elem_of_app. Qed.

(** Calls and logs in the trace of the loop go back to entries of the
    table whose pattern matched. *)
Lemma for_of_call_log_origin (rq : Request) (l : Table) (st : Z) ev :
  ev ∈ (for_of rq l st).1 ->
  match ev with
  | EvTest p b =>
      exists h, (p, h) ∈ l /\
        (if b then exists ps, url_test p (url rq) = Match ps
         else url_test p (url rq) = NoMatch)
  | EvCall p ctx =>
      exists h, (p, h) ∈ l /\ req ctx = rq /\
        url_test p (url rq) = Match (params ctx)
  | EvLog e =>
      exists p h ps, (p, h) ∈ l /\ url_test p (url rq) = Match ps /\
        h {| req := rq; params := ps |} = Rejected e
  end.
Proof.
  revert st. induction l as [|[p h] l IH]; intros st Hin.
  - by apply elem_of_nil in Hin.
  - assert (forall st0, ev ∈ (for_of rq l st0).1 ->
      match ev with
      | EvTest p' b =>
          exists h', (p', h') ∈ (p, h) :: l /\
            (if b then exists ps, url_test p' (url rq) = Match ps
             else url_test p' (url rq) = NoMatch)
      | EvCall p' ctx =>
          exists h', (p', h') ∈ (p, h) :: l /\ req ctx = rq /\
            url_test p' (url rq) = Match (params ctx)
      | EvLog e =>
          exists p' h' ps, (p', h') ∈ (p, h) :: l /\
            url_test p' (url rq) = Match ps /\
            h' {| req := rq; params := ps |} = Rejected e
      end) as Hrest.
    { intros st0 Hin0. specialize (IH st0 Hin0). destruct ev as [p' b|p' ctx|e].
      - destruct IH as (h' & ? & ?). exists h'. split; [by right|done].
      - destruct IH as (h' & ? & ?). exists h'. split; [by right|done].
      - destruct IH as (p' & h' & ps & ? & ?). exists p', h', ps.
        split; [by right|done]. }
    destruct (url_test p (url rq)) as [e| |ps] eqn:Ht.
    + rewrite (for_of_invalid _ _ _ _ _ _ Ht) in Hin. by apply elem_of_nil in Hin.
    + rewrite (for_of_nomatch _ _ _ _ _ Ht) in Hin.
      apply elem_of_emit in Hin as [Hin|Hin]; [|by eapply Hrest].
      apply list_elem_of_singleton in Hin as ->.
      exists h. split; [by left|done].
    + rewrite (for_of_match _ _ _ _ _ _ Ht) in Hin. cbv zeta in Hin.
      apply elem_of_emit in Hin as [Hin|Hin].
      * apply elem_of_cons in Hin as [->|Hin].
        { exists h. split; [by left|by exists ps]. }
        apply list_elem_of_singleton in Hin as ->.
        exists h. split; [by left|done].
      * destruct (h _) as [resp|e|] eqn:Hh; simpl in Hin.
        -- by apply elem_of_nil in Hin.
        -- apply elem_of_cons in Hin as [->|Hin]; [|by eapply Hrest].
           exists p, h, ps. split; [by left|done].
        -- by apply elem_of_nil in Hin.
Qed.

(** X13. A handler is called only for this request and only when its
    own pattern matched the URL: every call in the trace of a dispatch
    is the call of a handler registered under the request's method,
    with the request itself and the parameters its pattern extracted. *)
Theorem route_calls_only_matched_handlers r rq p ctx :
  EvCall p ctx ∈ (route r rq).1 ->
  exists table h,
    routes r !! method rq = Some table /\ (p, h) ∈ table /\
    req ctx = rq /\ url_test p (url rq) = Match (params ctx).
Proof.
  unfold route. destruct (routes r !! method rq) as [table|] eqn:Hm.
  - pose proof (for_of_call_log_origin rq table 405 (EvCall p ctx)) as Ho.
    destruct (for_of rq table 405) as [evs ex]. simpl in *. intros Hin.
    destruct (Ho Hin) as (h & ?). by exists table, h.
  - simpl. by intros ?%elem_of_nil.
Qed.

(** X14. Nothing is logged but handler failures: every error in the
    trace of a dispatch was thrown (or rejected with) by the handler
    of an entry whose pattern matched the URL. *)
Theorem route_logs_only_handler_errors r rq e :
  EvLog e ∈ (route r rq).1 ->
  exists table p h ps,
    routes r !! method rq = Some table /\ (p, h) ∈ table /\
    url_test p (url rq) = Match ps /\
    h {| req := rq; params := ps |} = Rejected e.
Proof.
  unfold route. destruct (routes r !! method rq) as [table|] eqn:Hm.
  - pose proof (for_of_call_log_origin rq table 405 (EvLog e)) as Ho.
    destruct (for_of rq table 405) as [evs ex]. simpl in *. intros Hin.
    destruct (Ho Hin) as (p & h & ps & ?). by exists table, p, h, ps.
  - simpl. by intros ?%elem_of_nil.
Qed.

End DispatchNever.

(** * Further properties of the static-directory handler *)

Lemma string_length_app (t u : string) :
  String.length (t +:+ u) = (String.length t + String.length u)%nat.
Proof. induction t as [|c t IH]; simpl; [done|by rewrite IH]. Qed.

Lemma substring_skip_app (t u : string) n :
  substring (String.length t) n (t +:+ u) = substring 0 n u.
Proof. induction t as [|c t IH]; simpl; done. Qed.

Lemma substring_full (s : string) : substring 0 (String.length s) s = s.
Proof. induction s as [|c s IH]; simpl; [done|by rewrite IH]. Qed.

Lemma substring_split (s : string) k :
  (k <= String.length s)%nat ->
  s = substring 0 k s +:+ substring k (String.length s - k) s.
Proof.
  revert k. induction s as [|c s IH]; intros k Hk; simpl in *.
  - by destruct k.
  - destruct k as [|k]; simpl.
    + by rewrite substring_full.
    + change (String c s =
              String c (substring 0 k s
                        +:+ substring k (String.length s - k) s)).
      f_equal. apply IH. lia.
Qed.

(** The regular expression [/\.js$/] holds of the strings that end in
    [".js"]. *)
Lemma ends_with_js_spec (s : string) :
  ends_with_js s = true <-> exists t, s = t +:+ ".js".
Proof.
  unfold ends_with_js. split.
  - intros [Hlen Heq%String.eqb_eq]%andb_true_iff.
    apply Nat.leb_le in Hlen.
    exists (substring 0 (String.length s - 3) s).
    pose proof (substring_split s (String.length s - 3)) as Hsplit.
    replace (String.length s - (String.length s - 3))%nat with 3%nat
      in Hsplit by lia.
    rewrite Heq in Hsplit. apply Hsplit. lia.
  - intros [t ->]. rewrite string_length_app.
    change (String.length ".js") with 3%nat.
    apply andb_true_iff. split; [apply Nat.leb_le; lia|].
    replace (String.length t + 3 - 3)%nat with (String.length t) by lia.
    by rewrite substring_skip_app.
Qed.

(** X11. Serving a file.  When the pattern matched and [Deno.open]
    gives the file at [./folder/path], the handler answers 200 with
    the stream of that file; the response carries the single header
    [content-type: text/javascript] exactly when the path ends in
    [".js"], and no header otherwise. *)
Theorem static_serves_file `{DenoAPI} folder ctx g file :
  params ctx = Some g ->
  Deno_open ("./" +:+ folder +:+ "/" +:+ js_String (g !! "path")) = Ok file ->
  exists resp,
    static_handler folder ctx = Fulfilled resp /\
    body resp = BodyStream file /\
    status resp = 200 /\
    (headers resp = [("content-type", "text/javascript")] \/
     headers resp = []) /\
    (headers resp = [("content-type", "text/javascript")] <->
     exists t, js_String (g !! "path") = t +:+ ".js").
Proof.
  intros Hps Hopen. unfold static_handler, static_try. rewrite Hps. simpl.
  rewrite Hopen. simpl. eexists. split; [done|]. simpl.
  pose proof (ends_with_js_spec (js_String (g !! "path"))) as Hjs.
  destruct (ends_with_js (js_String (g !! "path"))).
  - split_and!; [done|done|by left|]. split; [intros _|done]. by apply Hjs.
  - split_and!; [done|done|by right|]. split; [done|].
    intros Hex. apply Hjs in Hex. done.
Qed.

(** ** The further properties at concrete inputs *)

Lemma reachable_two_routes : reachable (H := Reference.deno) two_routes.
Proof.
  exact (reachable_call (H := Reference.deno) (CallGet (JSString "/b") h_ok) _
           (reachable_call (CallGet (JSString "/a") h_ok) _ reachable_new)).
Qed.

Lemma reachable_registry_invariant_witness :
  dom (routes two_routes) = {["GET"; "POST"]} /\
  forall meth table,
    routes two_routes !! meth = Some table ->
    NoDup (Map_keys table) /\ ("" ∉ Map_keys table).
Proof.
  apply (reachable_registry_invariant (H := Reference.deno)).
  apply reachable_two_routes.
Defined.

Lemma registration_keeps_order_witness :
  exists table',
    routes (run_call (H := Reference.deno)
              (CallGet (JSString "/c") h_other) two_routes).1 !! "GET"
    = Some table' /\
    Map_keys [("/a", h_ok); ("/b", h_ok)] `prefix_of` Map_keys table' /\
    (length table' <= 3)%nat.
Proof.
  apply (registration_keeps_order (H := Reference.deno)
           (CallGet (JSString "/c") h_other) two_routes "GET"
           [("/a", h_ok); ("/b", h_ok)]).
  vm_compute. reflexivity.
Defined.

Lemma add_other_method_frame_witness :
  ref_route (post (JSString "/a") h_other two_routes).1
    (GET "http://localhost/a")
  = ref_route two_routes (GET "http://localhost/a").
Proof.
  apply (add_other_method_frame (H := Reference.url_pattern)
           "POST" (JSString "/a") h_other two_routes
           (GET "http://localhost/a")).
  discriminate.
Defined.

Lemma add_fresh_pattern_keeps_answers_witness :
  ref_route
    (add "GET" (JSString "/items/42") h_other
       (ref_router [CallGet (JSString "/items/:id") h_id])).1
    (GET "http://localhost/items/42")
  = ref_route (ref_router [CallGet (JSString "/items/:id") h_id])
      (GET "http://localhost/items/42").
Proof.
  apply (add_fresh_pattern_keeps_answers (H := Reference.url_pattern)
           "GET" "/items/42" h_other _ _ [("/items/:id", h_id)]).
  - vm_compute. reflexivity.
  - intros st. vm_compute. discriminate.
  - intros [Heq|Hin%elem_of_nil]%elem_of_cons; [discriminate|done].
Defined.


Lemma route_status_is_last_entry_witness :
  (ref_route (ref_router [CallGet (JSString "/test") h_throw;
                          CallGet (JSString "/other") h_ok])
     (GET "http://localhost/test")).2
  = Fulfilled (bare 404) /\
  (ref_route (ref_router [CallGet (JSString "/other") h_ok;
                          CallGet (JSString "/test") h_throw])
     (GET "http://localhost/test")).2
  = Fulfilled (bare 500).
Proof.
  split.
  - etransitivity.
    + apply (route_status_is_last_entry (H := Reference.url_pattern)
               _ _ [("/test", h_throw)] "/other" h_ok).
      * vm_compute. reflexivity.
      * repeat constructor.
    + vm_compute. reflexivity.
  - etransitivity.
    + apply (route_status_is_last_entry (H := Reference.url_pattern)
               _ _ [("/other", h_ok)] "/test" h_throw).
      * vm_compute. reflexivity.
      * repeat constructor.
    + vm_compute. reflexivity.
Defined.

Lemma route_response_origin_witness :
  (bare 404 = bare 405 /\
   (routes two_routes !! "GET" = None \/ routes two_routes !! "GET" = Some []))
  \/
  ((bare 404 = bare 404 \/ bare 404 = bare 500) /\
   exists table,
     routes two_routes !! "GET" = Some table /\ table <> [] /\
     Forall (fun e => passed_over (H := Reference.url_pattern)
                        (GET "http://localhost/c") e = true) table)
  \/
  (exists table p h ps,
     routes two_routes !! "GET" = Some table /\ (p, h) ∈ table /\
     url_test (H := Reference.url_pattern) p "http://localhost/c" = Match ps /\
     h {| req := GET "http://localhost/c"; params := ps |}
     = Fulfilled (bare 404)).
Proof.
  apply (route_response_origin (H := Reference.url_pattern)
           two_routes (GET "http://localhost/c") (bare 404)).
  vm_compute. reflexivity.
Defined.

Lemma static_serves_file_witness :
  exists resp,
    static_handler (H := Reference.deno) "static"
      {| req := GET "http://localhost/static/app.js";
         params := Some {[ "path" := "app.js" ]} |}
    = Fulfilled resp /\
    body resp = BodyStream {| rid := 3 |} /\
    status resp = 200 /\
    (headers resp = [("content-type", "text/javascript")] \/
     headers resp = []) /\
    (headers resp = [("content-type", "text/javascript")] <->
     exists t, js_String (({[ "path" := "app.js" ]} : groups) !! "path")
               = t +:+ ".js").
Proof.
  apply (static_serves_file (H := Reference.deno) "static"
           {| req := GET "http://localhost/static/app.js";
              params := Some {[ "path" := "app.js" ]} |}
           {[ "path" := "app.js" ]} {| rid := 3 |}).
  - reflexivity.
  - vm_compute. reflexivity.
Defined.

Lemma route_rejects_on_invalid_pattern_witness :
  (ref_route (ref_router [CallGet (JSString "/a") h_ok;
                          CallGet (JSString "/:") h_ok;
                          CallGet (JSString "/x") h_ok])
     (GET "http://localhost/x")).2
  = Rejected (TypeError "Invalid pattern").
Proof.
  apply (route_rejects_on_invalid_pattern (H := Reference.url_pattern)
           _ _ [("/a", h_ok)] "/:" h_ok [("/x", h_ok)]).
  - vm_compute. reflexivity.
  - repeat constructor.
  - vm_compute. reflexivity.
Defined.

Lemma route_calls_only_matched_handlers_witness :
  exists table h,
    routes two_routes !! "GET" = Some table /\ ("/b", h) ∈ table /\
    GET "http://localhost/b" = GET "http://localhost/b" /\
    url_test (H := Reference.url_pattern) "/b" "http://localhost/b"
    = Match (Some ∅).
Proof.
  apply (route_calls_only_matched_handlers (H := Reference.url_pattern)
           two_routes (GET "http://localhost/b") "/b"
           {| req := GET "http://localhost/b"; params := Some ∅ |}).
  vm_compute. right. right. left.
Defined.

Lemma route_logs_only_handler_errors_witness :
  exists table p h ps,
    routes (ref_router [CallGet (JSString "/test") h_throw]) !! "GET"
    = Some table /\
    (p, h) ∈ table /\
    url_test (H := Reference.url_pattern) p "http://localhost/test"
    = Match ps /\
    h {| req := GET "http://localhost/test"; params := ps |}
    = Rejected (Error "TEST").
Proof.
  apply (route_logs_only_handler_errors (H := Reference.url_pattern)
           (ref_router [CallGet (JSString "/test") h_throw])
           (GET "http://localhost/test") (Error "TEST")).
  vm_compute. right. right. left.
Defined.
